(** * An 8-bit ALU with status flags: the core of [main.c] in Rocq

    The C program computes one of seven 8-bit operations and derives
    the four status flags Z, C, N and V.  This file embeds
    [clear_flags], [overflow_add], [overflow_sub] and [alu_execute]
    and proves the properties of the specification about them; it
    also embeds [op_to_string], [print_result] and the loop of [main],
    with the text they write, and proves what the code shows of them.

    Conventions of the embedding.
    - A [uint8_t] or [uint16_t] value is a [Z]; a conversion to the
      narrower type is the reduction modulo 2^8 or 2^16 ([u8], [u16]).
    - Operands of [~], [&], [|], [^], [<<], [>>], [+], [-] and of the
      comparisons are promoted to [int] by C.  All values that occur
      stay far inside the range of [int], so the promoted arithmetic
      is the arithmetic of [Z] ([Z.lnot] is the two's-complement
      complement on [Z], as [~] is on [int]).
    - The value of a C comparison is 0 or 1: [Z.b2z] of the boolean.
    - [alu_execute] writes through its two pointers [out] and [flags].
      The two pointed-to objects form the store [Mem]; the function
      takes the store before the call and returns the store after.
      The two objects are distinct, as [result] and [flags] are in
      [main].
    - [printf] writes to the standard output; a function that prints
      returns the text it writes. *)

From Stdlib Require Import ZArith Bool Lia Ascii String List.
Import ListNotations.

Local Open Scope Z_scope.

(** ** Machine integers *)

Definition u8 (x : Z) : Z := x mod 0x100.
Definition u16 (x : Z) : Z := x mod 0x10000.

(** [x] is a value of type [uint8_t]. *)
Definition is_u8 (x : Z) : Prop := 0 <= x < 0x100.

(** ** ALU flags *)

(** [struct ALUFlags]; the fields Z, C, N, V carry the prefix [f]
    because [Z] and [N] name the number types here. *)
Record ALUFlags : Set := mkFlags {
  fZ : Z;  (* Zero *)
  fC : Z;  (* Carry *)
  fN : Z;  (* Negative (MSB) *)
  fV : Z   (* Overflow (2's complement) *)
}.

(** ** ALU operations *)

(** [enum ALUOp]: a C enumeration is an integer type, and a caller
    can pass any integer for it; the enumerators are 0 to 6. *)
Definition ALUOp : Set := Z.

Definition OP_ADD : ALUOp := 0.
Definition OP_SUB : ALUOp := 1.
Definition OP_AND : ALUOp := 2.
Definition OP_OR  : ALUOp := 3.
Definition OP_XOR : ALUOp := 4.
Definition OP_SHL : ALUOp := 5.
Definition OP_SHR : ALUOp := 6.

(** The closed set of operations the switch knows. *)
Definition known_op (op : ALUOp) : Prop :=
  op = OP_ADD \/ op = OP_SUB \/ op = OP_AND \/ op = OP_OR \/
  op = OP_XOR \/ op = OP_SHL \/ op = OP_SHR.

(** ** The store behind the two output pointers *)

Record Mem : Set := mkMem {
  out : Z;             (* *out   *)
  flags : ALUFlags     (* *flags *)
}.

Definition store_out (v : Z) (m : Mem) : Mem := mkMem v (flags m).
Definition store_flags (f : ALUFlags) (m : Mem) : Mem := mkMem (out m) f.

Definition set_Z (v : Z) (m : Mem) : Mem :=
  store_flags (mkFlags v (fC (flags m)) (fN (flags m)) (fV (flags m))) m.
Definition set_C (v : Z) (m : Mem) : Mem :=
  store_flags (mkFlags (fZ (flags m)) v (fN (flags m)) (fV (flags m))) m.
Definition set_N (v : Z) (m : Mem) : Mem :=
  store_flags (mkFlags (fZ (flags m)) (fC (flags m)) v (fV (flags m))) m.
Definition set_V (v : Z) (m : Mem) : Mem :=
  store_flags (mkFlags (fZ (flags m)) (fC (flags m)) (fN (flags m)) v) m.

(** ** The functions of the core *)

(** [f->Z = f->C = f->N = f->V = 0;] *)
Definition clear_flags (f : ALUFlags) : ALUFlags :=
  let v := u8 0 in
  let f := mkFlags (fZ f) (fC f) (fN f) v in
  let v := u8 v in
  let f := mkFlags (fZ f) (fC f) v (fV f) in
  let v := u8 v in
  let f := mkFlags (fZ f) v (fN f) (fV f) in
  let v := u8 v in
  mkFlags v (fC f) (fN f) (fV f).

(** [(uint8_t)((~(a ^ b) & (a ^ r) & 0x80) != 0)] *)
Definition overflow_add (a b r : Z) : Z :=
  u8 (Z.b2z (negb
    (Z.land (Z.land (Z.lnot (Z.lxor a b)) (Z.lxor a r)) 0x80 =? 0))).

(** [(uint8_t)(((a ^ b) & (a ^ r) & 0x80) != 0)] *)
Definition overflow_sub (a b r : Z) : Z :=
  u8 (Z.b2z (negb
    (Z.land (Z.land (Z.lxor a b) (Z.lxor a r)) 0x80 =? 0))).

(** The body of the [switch]: one branch per enumerator, and the
    [default] branch for every other value of [op].  [temp] is local
    to the call; only the branches for ADD and SUB assign it. *)
Definition alu_switch (a b : Z) (op : ALUOp) (m : Mem) : Mem :=
  if op =? OP_ADD then
    let temp := u16 (u16 a + u16 b) in
    let m := store_out (u8 (Z.land temp 0xFF)) m in
    let m := set_C (u8 (Z.b2z (temp >? 0xFF))) m in
    set_V (overflow_add a b (out m)) m
  else if op =? OP_SUB then
    let temp := u16 (u16 a - u16 b) in
    let m := store_out (u8 (Z.land temp 0xFF)) m in
    let m := set_C (u8 (Z.b2z (a <? b))) m in
    set_V (overflow_sub a b (out m)) m
  else if op =? OP_AND then
    store_out (u8 (Z.land a b)) m
  else if op =? OP_OR then
    store_out (u8 (Z.lor a b)) m
  else if op =? OP_XOR then
    store_out (u8 (Z.lxor a b)) m
  else if op =? OP_SHL then
    let m := set_C (u8 (Z.b2z (negb (Z.land a 0x80 =? 0)))) m in
    store_out (u8 (Z.shiftl a 1)) m
  else if op =? OP_SHR then
    let m := set_C (u8 (Z.b2z (negb (Z.land a 0x01 =? 0)))) m in
    store_out (u8 (Z.shiftr a 1)) m
  else
    store_out 0 m.

(** [alu_execute(a, b, op, out, flags)]: the store after the call. *)
Definition alu_execute (a b : Z) (op : ALUOp) (m : Mem) : Mem :=
  let m := store_flags (clear_flags (flags m)) m in
  let m := alu_switch a b op m in
  (* Common flag updates *)
  let m := set_Z (u8 (Z.b2z (out m =? 0))) m in
  set_N (u8 (Z.b2z (negb (Z.land (out m) 0x80 =? 0)))) m.

(** The interface of the specification: [evaluate] returns the result
    and the flag set of a call on the store [m0] the caller provides. *)
Definition evaluate (m0 : Mem) (a b : Z) (op : ALUOp) : Z * ALUFlags :=
  let m := alu_execute a b op m0 in (out m, flags m).

(** The store of the test harness in [main]: [result] is initialised
    to 0, [flags] is left uninitialised (any value [f0]). *)
Definition harness_store (f0 : ALUFlags) : Mem := mkMem 0 f0.

Definition zero_flags : ALUFlags := mkFlags 0 0 0 0.
Definition m_init : Mem := harness_store zero_flags.

(** ** Pretty printing helpers *)

(** [op_to_string]: the name of each enumerator, [UNK] for every other
    value. *)
Definition op_to_string (op : ALUOp) : string :=
  if op =? OP_ADD then "ADD"
  else if op =? OP_SUB then "SUB"
  else if op =? OP_AND then "AND"
  else if op =? OP_OR then "OR"
  else if op =? OP_XOR then "XOR"
  else if op =? OP_SHL then "SHL"
  else if op =? OP_SHR then "SHR"
  else "UNK".

(** The line feed that ends each line of output. *)
Definition nl : string := String "010"%char EmptyString.

(** One upper-case hexadecimal digit, as [%X] prints it. *)
Definition hex_digit (d : Z) : ascii :=
  match d with
  | 0 => "0" | 1 => "1" | 2 => "2" | 3 => "3"
  | 4 => "4" | 5 => "5" | 6 => "6" | 7 => "7"
  | 8 => "8" | 9 => "9" | 10 => "A" | 11 => "B"
  | 12 => "C" | 13 => "D" | 14 => "E" | 15 => "F"
  | _ => "?"
  end%char.

(** [%02X] of a [uint8_t] argument: the value never needs more than
    two digits, and the zero padding fills them up to two. *)
Definition fmt_02X (v : Z) : string :=
  String (hex_digit (v / 16)) (String (hex_digit (v mod 16)) EmptyString).

(** One decimal digit. *)
Definition dec_digit (d : Z) : ascii :=
  match d with
  | 0 => "0" | 1 => "1" | 2 => "2" | 3 => "3" | 4 => "4"
  | 5 => "5" | 6 => "6" | 7 => "7" | 8 => "8" | 9 => "9"
  | _ => "?"
  end%char.

(** [%d] of a [uint8_t] argument: one to three digits, no padding. *)
Definition fmt_d (v : Z) : string :=
  if v <? 10 then
    String (dec_digit v) EmptyString
  else if v <? 100 then
    String (dec_digit (v / 10)) (String (dec_digit (v mod 10)) EmptyString)
  else
    String (dec_digit (v / 100))
      (String (dec_digit (v / 10 mod 10))
         (String (dec_digit (v mod 10)) EmptyString)).

(** The four flag fields, as both formats of [print_result] end. *)
Definition fmt_flags (fl : ALUFlags) : string :=
  ("  | Z=" ++ fmt_d (fZ fl) ++ " C=" ++ fmt_d (fC fl) ++
   " N=" ++ fmt_d (fN fl) ++ " V=" ++ fmt_d (fV fl) ++ nl)%string.

(** [print_result(a, b, op, result, flags)]: the text written to the
    standard output.  The shifts print one operand, every other
    operation prints two. *)
Definition print_result (a b : Z) (op : ALUOp) (result : Z)
    (fl : ALUFlags) : string :=
  if (op =? OP_SHL) || (op =? OP_SHR) then
    (op_to_string op ++ "  0x" ++ fmt_02X a ++ " -> 0x" ++ fmt_02X result ++
     fmt_flags fl)%string
  else
    (op_to_string op ++ "  0x" ++ fmt_02X a ++ " , 0x" ++ fmt_02X b ++
     " -> 0x" ++ fmt_02X result ++ fmt_flags fl)%string.

(** ** Simple test harness *)

(** [struct TestVector]; the fields a, b, op carry the prefix [tv_]. *)
Record TestVector : Set := mkTest {
  tv_a : Z;
  tv_b : Z;
  tv_op : ALUOp
}.

(** The array [tests] of [main]. *)
Definition tests : list TestVector :=
  [ mkTest 15 27 OP_ADD;
    mkTest 10 40 OP_SUB;
    mkTest 0xF0 0x0F OP_AND;
    mkTest 0xF0 0x0F OP_OR;
    mkTest 0x55 0xFF OP_XOR;
    mkTest 0x81 0x00 OP_SHL;
    mkTest 0x03 0x00 OP_SHR ].

(** One iteration of the loop of [main]: [result] starts at 0,
    [flags] is declared without an initialiser and holds whatever the
    stack held ([f0]); the iteration returns the line it prints. *)
Definition run_test (f0 : ALUFlags) (t : TestVector) : string :=
  let m := harness_store f0 in
  let m := alu_execute (tv_a t) (tv_b t) (tv_op t) m in
  print_result (tv_a t) (tv_b t) (tv_op t) (out m) (flags m).

(** The loop of [main] from index [i] on, over the vectors [ts] that
    are left; [garbage i] is what the uninitialised [flags] of
    iteration [i] holds. *)
Fixpoint run_tests (garbage : nat -> ALUFlags) (i : nat)
    (ts : list TestVector) : string :=
  match ts with
  | [] => EmptyString
  | t :: rest =>
      (run_test (garbage i) t ++ run_tests garbage (S i) rest)%string
  end.

(** [main]: the text written to the standard output and the exit
    status. *)
Definition main (garbage : nat -> ALUFlags) : string * Z :=
  let stdout := ("8-bit ALU with Status Flags (Simulation Mode)" ++ nl)%string in
  let stdout :=
    (stdout ++ "------------------------------------------------" ++ nl ++ nl)%string in
  let stdout := (stdout ++ run_tests garbage 0 tests)%string in
  let stdout := (stdout ++ nl ++ "End of ALU demonstration." ++ nl)%string in
  (stdout, 0).

(** The number of line feeds in a text: the number of lines printed. *)
Fixpoint count_lines (s : string) : nat :=
  match s with
  | EmptyString => 0%nat
  | String c rest =>
      ((if Ascii.eqb c "010" then 1 else 0) + count_lines rest)%nat
  end.

(** ** Vocabulary of the specification *)

(** The sign bit of an 8-bit value is its bit 7. *)
Definition sign_bit (x : Z) : bool := Z.testbit x 7.

(** The value of an 8-bit pattern read as a two's-complement number. *)
Definition signed8 (x : Z) : Z := if 0x80 <=? x then x - 0x100 else x.

(** A flag holds one bit. *)
Definition is_bit (v : Z) : Prop := v = 0 \/ v = 1.

(** Every flag of a flag set holds one bit. *)
Definition flags_are_bits (fl : ALUFlags) : Prop :=
  is_bit (fZ fl) /\ is_bit (fC fl) /\ is_bit (fN fl) /\ is_bit (fV fl).

(** The operations that [print_result] prints with one operand. *)
Definition is_shift (op : ALUOp) : Prop := op = OP_SHL \/ op = OP_SHR.

(** ** Proof automation *)

(** Decide every comparison with [0x80] in the goal, then settle the
    equivalence between the sign-bit condition and the range condition
    in each case. *)
Ltac sign_cases :=
  repeat match goal with
  | |- context [0x80 <=? ?x] => destruct (Z.leb_spec 0x80 x)
  end;
  (split;
   [ intros [Esame Ndiff];
     first [ discriminate Esame | lia | exfalso; apply Ndiff; reflexivity ]
   | intros Nrange;
     first [ lia | split; [reflexivity | discriminate] | split; discriminate ] ]).

(** ** Test vectors of [main] and of the specification *)

Example run_add_15_27 :
  evaluate m_init 15 27 OP_ADD = (42, mkFlags 0 0 0 0).
Proof. reflexivity. Qed.

Example run_add_carry :
  evaluate m_init 255 1 OP_ADD = (0, mkFlags 1 1 0 0).
Proof. reflexivity. Qed.

Example run_add_overflow :
  evaluate m_init 0x7F 1 OP_ADD = (0x80, mkFlags 0 0 1 1).
Proof. reflexivity. Qed.

Example run_sub_borrow :
  evaluate m_init 10 40 OP_SUB = (0xE2, mkFlags 0 1 1 0).
Proof. reflexivity. Qed.

Example run_sub_overflow :
  evaluate m_init 0x80 1 OP_SUB = (0x7F, mkFlags 0 0 0 1).
Proof. reflexivity. Qed.

Example run_and : evaluate m_init 0xF0 0x0F OP_AND = (0, mkFlags 1 0 0 0).
Proof. reflexivity. Qed.

Example run_or : evaluate m_init 0xF0 0x0F OP_OR = (0xFF, mkFlags 0 0 1 0).
Proof. reflexivity. Qed.

Example run_xor : evaluate m_init 0x55 0xFF OP_XOR = (0xAA, mkFlags 0 0 1 0).
Proof. reflexivity. Qed.

Example run_shl : evaluate m_init 0x81 0 OP_SHL = (0x02, mkFlags 0 1 0 0).
Proof. reflexivity. Qed.

Example run_shr : evaluate m_init 0x03 0 OP_SHR = (0x01, mkFlags 0 1 0 0).
Proof. reflexivity. Qed.

Example run_unknown : evaluate m_init 0x03 0x09 7 = (0, mkFlags 1 0 0 0).
Proof. reflexivity. Qed.

(** ** Machine-integer lemmas *)

Lemma u8_small x : is_u8 x -> u8 x = x.
Proof. intros H. apply Z.mod_small. exact H. Qed.

Lemma u16_small x : 0 <= x < 0x10000 -> u16 x = x.
Proof. intros H. apply Z.mod_small. exact H. Qed.

Lemma u8_is_u8 x : is_u8 (u8 x).
Proof. unfold is_u8, u8. apply Z.mod_pos_bound. reflexivity. Qed.

Lemma u8_u8 x : u8 (u8 x) = u8 x.
Proof. apply u8_small, u8_is_u8. Qed.

Lemma u8_b2z c : u8 (Z.b2z c) = Z.b2z c.
Proof. destruct c; reflexivity. Qed.

Lemma u8_u16 x : u8 (u16 x) = u8 x.
Proof.
  unfold u8, u16.
  apply Z.mod_mod_divide.
  exists 0x100. reflexivity.
Qed.

(** Masking with [0xFF] is the conversion to [uint8_t]. *)
Lemma land_0xFF x : Z.land x 0xFF = u8 x.
Proof. change 0xFF with (Z.ones 8). rewrite Z.land_ones by lia. reflexivity. Qed.

(** Masking with [0x80] isolates bit 7. *)
Lemma land_0x80 x : Z.land x 0x80 = if Z.testbit x 7 then 0x80 else 0.
Proof.
  apply Z.bits_inj'. intros n Hn.
  rewrite Z.land_spec.
  change 0x80 with (2 ^ 7). rewrite Z.pow2_bits_eqb by lia.
  destruct (Z.eqb_spec 7 n) as [<- | Hne].
  - rewrite andb_true_r.
    destruct (Z.testbit x 7).
    + rewrite Z.pow2_bits_true; lia.
    + rewrite Z.bits_0. reflexivity.
  - rewrite andb_false_r.
    destruct (Z.testbit x 7).
    + rewrite Z.pow2_bits_false; lia.
    + rewrite Z.bits_0. reflexivity.
Qed.

Lemma bit7_test x : negb (Z.land x 0x80 =? 0) = Z.testbit x 7.
Proof. rewrite land_0x80. destruct (Z.testbit x 7); reflexivity. Qed.

(** Masking with [0x01] isolates bit 0. *)
Lemma bit0_test x : negb (Z.land x 0x01 =? 0) = Z.testbit x 0.
Proof.
  change 0x01 with (Z.ones 1). rewrite Z.land_ones by lia.
  change (2 ^ 1) with 2. rewrite <- Z.bit0_mod.
  destruct (Z.testbit x 0); reflexivity.
Qed.

(** Bit 7 of a [uint8_t] value tells whether it is 128 or more. *)
Lemma bit7_u8 x : is_u8 x -> Z.testbit x 7 = (0x80 <=? x).
Proof.
  intros Hx. unfold is_u8 in Hx.
  destruct (Z.leb_spec 0x80 x) as [Hle | Hlt].
  - apply Z.testbit_true; [lia |].
    change (2 ^ 7) with 0x80.
    replace (x / 0x80) with 1; [reflexivity |].
    apply Z.div_unique with (r := x - 0x80); lia.
  - apply Z.testbit_false; [lia |].
    change (2 ^ 7) with 0x80.
    rewrite Z.div_small by lia. reflexivity.
Qed.

(** All bits of a [uint8_t] value from bit 8 on are clear. *)
Lemma u8_bits_high x n : is_u8 x -> 8 <= n -> Z.testbit x n = false.
Proof.
  intros Hx Hn. rewrite <- (u8_small x Hx). unfold u8.
  change 0x100 with (2 ^ 8). apply Z.mod_pow2_bits_high. lia.
Qed.

(** A bitwise operation that maps two clear bits to a clear bit
    keeps [uint8_t] operands inside [uint8_t]. *)
Lemma u8_bitwise (op : Z -> Z -> Z) (f : bool -> bool -> bool) a b :
  (forall x y n, 0 <= n ->
     Z.testbit (op x y) n = f (Z.testbit x n) (Z.testbit y n)) ->
  f false false = false ->
  is_u8 a -> is_u8 b -> u8 (op a b) = op a b.
Proof.
  intros Hop Hf Ha Hb. rewrite <- land_0xFF.
  apply Z.bits_inj'. intros n Hn.
  rewrite Z.land_spec. change 0xFF with (Z.ones 8).
  destruct (Z.ltb_spec n 8) as [Hlt | Hge].
  - rewrite Z.ones_spec_low by lia. apply andb_true_r.
  - rewrite Z.ones_spec_high by lia. rewrite andb_false_r.
    rewrite Hop, (u8_bits_high a), (u8_bits_high b) by (assumption || lia).
    symmetry. exact Hf.
Qed.

(** ** The store after a call *)

Lemma clear_flags_zero f : clear_flags f = zero_flags.
Proof. reflexivity. Qed.

(** The two common flag updates, with the casts and masks resolved. *)
Lemma alu_execute_eq a b op m :
  alu_execute a b op m =
  let m1 := alu_switch a b op (mkMem (out m) zero_flags) in
  mkMem (out m1)
        (mkFlags (Z.b2z (out m1 =? 0)) (fC (flags m1))
                 (Z.b2z (Z.testbit (out m1) 7)) (fV (flags m1))).
Proof.
  unfold alu_execute. rewrite clear_flags_zero.
  cbv zeta. unfold set_N, set_Z, store_flags.
  cbn [out flags fZ fC fN fV].
  rewrite !u8_b2z, bit7_test. reflexivity.
Qed.

(** ** The store after each operation *)

Section Operations.

Variables (a b : Z) (m : Mem).
Hypothesis (Ha : is_u8 a) (Hb : is_u8 b).

Lemma alu_execute_add :
  alu_execute a b OP_ADD m =
  let r := u8 (a + b) in
  mkMem r (mkFlags (Z.b2z (r =? 0)) (Z.b2z (0xFF <? a + b))
                   (Z.b2z (sign_bit r)) (overflow_add a b r)).
Proof.
  rewrite alu_execute_eq. unfold alu_switch.
  change (OP_ADD =? OP_ADD) with true. cbv iota zeta.
  unfold set_V, set_C, store_flags, store_out.
  cbn [out flags fZ fC fN fV zero_flags].
  rewrite land_0xFF, u8_b2z, u8_u8, u8_u16, Z.gtb_ltb.
  unfold is_u8 in Ha, Hb.
  rewrite (u16_small a), (u16_small b), (u16_small (a + b)) by lia.
  reflexivity.
Qed.

Lemma alu_execute_sub :
  alu_execute a b OP_SUB m =
  let r := u8 (a - b) in
  mkMem r (mkFlags (Z.b2z (r =? 0)) (Z.b2z (a <? b))
                   (Z.b2z (sign_bit r)) (overflow_sub a b r)).
Proof.
  rewrite alu_execute_eq. unfold alu_switch.
  change (OP_SUB =? OP_ADD) with false.
  change (OP_SUB =? OP_SUB) with true. cbv iota zeta.
  unfold set_V, set_C, store_flags, store_out.
  cbn [out flags fZ fC fN fV zero_flags].
  rewrite land_0xFF, u8_b2z, u8_u8, u8_u16.
  unfold is_u8 in Ha, Hb.
  rewrite (u16_small a), (u16_small b) by lia.
  reflexivity.
Qed.

Lemma alu_execute_and :
  alu_execute a b OP_AND m =
  let r := Z.land a b in
  mkMem r (mkFlags (Z.b2z (r =? 0)) 0 (Z.b2z (sign_bit r)) 0).
Proof.
  rewrite alu_execute_eq. unfold alu_switch, store_out.
  change (OP_AND =? OP_ADD) with false.
  change (OP_AND =? OP_SUB) with false.
  change (OP_AND =? OP_AND) with true. cbv iota zeta.
  cbn [out flags fZ fC fN fV zero_flags].
  rewrite (u8_bitwise Z.land andb) by (auto using Z.land_spec).
  reflexivity.
Qed.

Lemma alu_execute_or :
  alu_execute a b OP_OR m =
  let r := Z.lor a b in
  mkMem r (mkFlags (Z.b2z (r =? 0)) 0 (Z.b2z (sign_bit r)) 0).
Proof.
  rewrite alu_execute_eq. unfold alu_switch, store_out.
  change (OP_OR =? OP_ADD) with false.
  change (OP_OR =? OP_SUB) with false.
  change (OP_OR =? OP_AND) with false.
  change (OP_OR =? OP_OR) with true. cbv iota zeta.
  cbn [out flags fZ fC fN fV zero_flags].
  rewrite (u8_bitwise Z.lor orb) by (auto using Z.lor_spec).
  reflexivity.
Qed.

Lemma alu_execute_xor :
  alu_execute a b OP_XOR m =
  let r := Z.lxor a b in
  mkMem r (mkFlags (Z.b2z (r =? 0)) 0 (Z.b2z (sign_bit r)) 0).
Proof.
  rewrite alu_execute_eq. unfold alu_switch, store_out.
  change (OP_XOR =? OP_ADD) with false.
  change (OP_XOR =? OP_SUB) with false.
  change (OP_XOR =? OP_AND) with false.
  change (OP_XOR =? OP_OR) with false.
  change (OP_XOR =? OP_XOR) with true. cbv iota zeta.
  cbn [out flags fZ fC fN fV zero_flags].
  rewrite (u8_bitwise Z.lxor xorb) by (auto using Z.lxor_spec).
  reflexivity.
Qed.

End Operations.

(** The shifts and the default branch never read [b], and hold for
    every value of [a]. *)
Lemma alu_execute_shl a b m :
  alu_execute a b OP_SHL m =
  let r := u8 (Z.shiftl a 1) in
  mkMem r (mkFlags (Z.b2z (r =? 0)) (Z.b2z (Z.testbit a 7))
                   (Z.b2z (sign_bit r)) 0).
Proof.
  rewrite alu_execute_eq. unfold alu_switch, set_C, store_flags, store_out.
  change (OP_SHL =? OP_ADD) with false.
  change (OP_SHL =? OP_SUB) with false.
  change (OP_SHL =? OP_AND) with false.
  change (OP_SHL =? OP_OR) with false.
  change (OP_SHL =? OP_XOR) with false.
  change (OP_SHL =? OP_SHL) with true. cbv iota zeta.
  cbn [out flags fZ fC fN fV zero_flags].
  rewrite u8_b2z, bit7_test. reflexivity.
Qed.

Lemma alu_execute_shr a b m :
  alu_execute a b OP_SHR m =
  let r := u8 (Z.shiftr a 1) in
  mkMem r (mkFlags (Z.b2z (r =? 0)) (Z.b2z (Z.testbit a 0))
                   (Z.b2z (sign_bit r)) 0).
Proof.
  rewrite alu_execute_eq. unfold alu_switch, set_C, store_flags, store_out.
  change (OP_SHR =? OP_ADD) with false.
  change (OP_SHR =? OP_SUB) with false.
  change (OP_SHR =? OP_AND) with false.
  change (OP_SHR =? OP_OR) with false.
  change (OP_SHR =? OP_XOR) with false.
  change (OP_SHR =? OP_SHL) with false.
  change (OP_SHR =? OP_SHR) with true. cbv iota zeta.
  cbn [out flags fZ fC fN fV zero_flags].
  rewrite u8_b2z, bit0_test. reflexivity.
Qed.

Lemma alu_switch_default a b op m :
  ~ known_op op -> alu_switch a b op m = store_out 0 m.
Proof.
  intros Hop. unfold known_op in Hop. unfold alu_switch.
  repeat match goal with
  | |- context [?x =? ?y] =>
      destruct (Z.eqb_spec x y) as [-> | _]; [exfalso; tauto |]
  end.
  reflexivity.
Qed.

Lemma alu_execute_default a b op m :
  ~ known_op op ->
  alu_execute a b op m = mkMem 0 (mkFlags 1 0 0 0).
Proof.
  intros Hop. rewrite alu_execute_eq, alu_switch_default by exact Hop.
  reflexivity.
Qed.

(** ** The overflow helpers, bit by bit *)

Lemma overflow_add_bit a b r :
  overflow_add a b r =
  Z.b2z (Z.testbit (Z.land (Z.lnot (Z.lxor a b)) (Z.lxor a r)) 7).
Proof. unfold overflow_add. rewrite u8_b2z, bit7_test. reflexivity. Qed.

Lemma overflow_sub_bit a b r :
  overflow_sub a b r =
  Z.b2z (Z.testbit (Z.land (Z.lxor a b) (Z.lxor a r)) 7).
Proof. unfold overflow_sub. rewrite u8_b2z, bit7_test. reflexivity. Qed.

Lemma overflow_add_signs a b r :
  overflow_add a b r = 1 <->
  sign_bit a = sign_bit b /\ sign_bit r <> sign_bit a.
Proof.
  rewrite overflow_add_bit. unfold sign_bit.
  rewrite Z.land_spec, Z.lnot_spec, !Z.lxor_spec by lia.
  destruct (Z.testbit a 7), (Z.testbit b 7), (Z.testbit r 7); cbn;
    intuition congruence.
Qed.

Lemma overflow_sub_signs a b r :
  overflow_sub a b r = 1 <->
  sign_bit a <> sign_bit b /\ sign_bit r <> sign_bit a.
Proof.
  rewrite overflow_sub_bit. unfold sign_bit.
  rewrite Z.land_spec, !Z.lxor_spec.
  destruct (Z.testbit a 7), (Z.testbit b 7), (Z.testbit r 7); cbn;
    intuition congruence.
Qed.

Lemma b2z_1 c : Z.b2z c = 1 <-> c = true.
Proof. destruct c; cbn; intuition congruence. Qed.

Lemma b2z_is_bit c : is_bit (Z.b2z c).
Proof. destruct c; [right | left]; reflexivity. Qed.

Create HintDb alu.
#[local] Hint Resolve b2z_is_bit : alu.

(** ** Addition *)

(** C1. For 8-bit operands [a] and [b], ADD returns [(a + b) mod 256];
    Carry is 1 exactly when [a + b >= 256]; Overflow is 1 exactly when
    [a] and [b] have the same sign bit and the sign bit of the result
    differs from it, which is exactly when bit 7 of
    [~(a ^ b) & (a ^ result)] is set.  Both flags hold 0 or 1. *)
Theorem add_result_carry_overflow m0 a b :
  is_u8 a -> is_u8 b ->
  let '(r, f) := evaluate m0 a b OP_ADD in
  r = (a + b) mod 256 /\
  (fC f = 1 <-> a + b >= 256) /\
  (fV f = 1 <-> sign_bit a = sign_bit b /\ sign_bit r <> sign_bit a) /\
  (fV f = 1 <->
   Z.testbit (Z.land (Z.lnot (Z.lxor a b)) (Z.lxor a r)) 7 = true) /\
  is_bit (fC f) /\ is_bit (fV f).
Proof.
  intros Ha Hb. unfold evaluate.
  rewrite alu_execute_add by assumption.
  cbv zeta. cbn [out flags fC fV].
  split; [reflexivity |].
  split; [rewrite b2z_1, Z.ltb_lt; lia |].
  split; [apply overflow_add_signs |].
  split; [rewrite overflow_add_bit; apply b2z_1 |].
  split; [| rewrite overflow_add_bit]; auto with alu.
Qed.

Lemma add_result_carry_overflow_witness :
  is_u8 0x7F /\ is_u8 1 /\
  evaluate m_init 0x7F 1 OP_ADD = (0x80, mkFlags 0 0 1 1) /\
  sign_bit 0x7F = sign_bit 1 /\ sign_bit 0x80 <> sign_bit 0x7F.
Proof.
  assert (H1 : is_u8 0x7F) by (unfold is_u8; lia).
  assert (H2 : is_u8 1) by (unfold is_u8; lia).
  pose proof (add_result_carry_overflow m_init 0x7F 1 H1 H2) as H.
  change (evaluate m_init 0x7F 1 OP_ADD) with (0x80, mkFlags 0 0 1 1) in H.
  cbv beta iota zeta in H.
  destruct H as (_ & _ & HV & _).
  split; [exact H1 |]. split; [exact H2 |]. split; [reflexivity |].
  apply HV. reflexivity.
Defined.

(** ** Subtraction *)

(** C2. For 8-bit operands [a] and [b], SUB returns [(a - b) mod 256];
    Carry is 1 exactly when [a < b] (the borrow); Overflow is 1 exactly
    when [a] and [b] differ in sign bit and the sign bit of the result
    differs from that of [a], which is exactly when bit 7 of
    [(a ^ b) & (a ^ result)] is set.  Both flags hold 0 or 1. *)
Theorem sub_result_borrow_overflow m0 a b :
  is_u8 a -> is_u8 b ->
  let '(r, f) := evaluate m0 a b OP_SUB in
  r = (a - b) mod 256 /\
  (fC f = 1 <-> a < b) /\
  (fV f = 1 <-> sign_bit a <> sign_bit b /\ sign_bit r <> sign_bit a) /\
  (fV f = 1 <-> Z.testbit (Z.land (Z.lxor a b) (Z.lxor a r)) 7 = true) /\
  is_bit (fC f) /\ is_bit (fV f).
Proof.
  intros Ha Hb. unfold evaluate.
  rewrite alu_execute_sub by assumption.
  cbv zeta. cbn [out flags fC fV].
  split; [reflexivity |].
  split; [rewrite b2z_1; apply Z.ltb_lt |].
  split; [apply overflow_sub_signs |].
  split; [rewrite overflow_sub_bit; apply b2z_1 |].
  split; [| rewrite overflow_sub_bit]; auto with alu.
Qed.

Lemma sub_result_borrow_overflow_witness :
  is_u8 0x80 /\ is_u8 1 /\
  evaluate m_init 0x80 1 OP_SUB = (0x7F, mkFlags 0 0 0 1) /\
  sign_bit 0x80 <> sign_bit 1 /\ sign_bit 0x7F <> sign_bit 0x80.
Proof.
  assert (H1 : is_u8 0x80) by (unfold is_u8; lia).
  assert (H2 : is_u8 1) by (unfold is_u8; lia).
  pose proof (sub_result_borrow_overflow m_init 0x80 1 H1 H2) as H.
  change (evaluate m_init 0x80 1 OP_SUB) with (0x7F, mkFlags 0 0 0 1) in H.
  cbv beta iota zeta in H.
  destruct H as (_ & _ & HV & _).
  split; [exact H1 |]. split; [exact H2 |]. split; [reflexivity |].
  apply HV. reflexivity.
Defined.

(** C10. For 8-bit operands, SUB sets Zero to 1 exactly when [a = b];
    hence Zero and Carry are never both 1 after SUB. *)
Theorem sub_zero_iff_equal m0 a b :
  is_u8 a -> is_u8 b ->
  let '(_, f) := evaluate m0 a b OP_SUB in
  (fZ f = 1 <-> a = b) /\ ~ (fZ f = 1 /\ fC f = 1).
Proof.
  intros Ha Hb. unfold evaluate.
  rewrite alu_execute_sub by assumption.
  cbv zeta. cbn [out flags fZ fC].
  assert (HZ : Z.b2z (u8 (a - b) =? 0) = 1 <-> a = b).
  { rewrite b2z_1, Z.eqb_eq. unfold u8, is_u8 in *. split.
    - intros H0. apply Z.mod_divide in H0; [| lia].
      destruct H0 as [k Hk]. lia.
    - intros ->. rewrite Z.sub_diag. reflexivity. }
  split; [exact HZ |].
  intros [H0 H1]. apply HZ in H0. apply b2z_1, Z.ltb_lt in H1. lia.
Qed.

Lemma sub_zero_iff_equal_witness :
  is_u8 0x2A /\ is_u8 0x2A /\ fZ (snd (evaluate m_init 0x2A 0x2A OP_SUB)) = 1.
Proof.
  assert (H1 : is_u8 0x2A) by (unfold is_u8; lia).
  pose proof (sub_zero_iff_equal m_init 0x2A 0x2A H1 H1) as H.
  change (evaluate m_init 0x2A 0x2A OP_SUB) with (0, mkFlags 1 0 0 0) in H.
  cbv beta iota zeta in H.
  destruct H as (HZ & _).
  split; [exact H1 |]. split; [exact H1 |].
  apply HZ. reflexivity.
Defined.

(** ** The common flag updates *)

(** C3. For 8-bit operands and every operation tag, known or not, the
    returned Zero flag is 1 exactly when the returned result is 0, and
    the returned Negative flag is 1 exactly when bit 7 of the returned
    result is set.  Both flags hold 0 or 1. *)
Theorem zero_negative_follow_result m0 a b (op : ALUOp) :
  is_u8 a -> is_u8 b ->
  let '(r, f) := evaluate m0 a b op in
  (fZ f = 1 <-> r = 0) /\
  (fN f = 1 <-> Z.testbit r 7 = true) /\
  is_bit (fZ f) /\ is_bit (fN f).
Proof.
  intros _ _. unfold evaluate. rewrite alu_execute_eq.
  cbv zeta. cbn [out flags fZ fN].
  split; [rewrite b2z_1; apply Z.eqb_eq |].
  split; [apply b2z_1 |].
  split; auto with alu.
Qed.

Lemma zero_negative_follow_result_witness :
  is_u8 0x55 /\ is_u8 0xFF /\
  fN (snd (evaluate m_init 0x55 0xFF OP_XOR)) = 1 /\
  fZ (snd (evaluate m_init 0x55 0xFF 9)) = 1.
Proof.
  assert (H1 : is_u8 0x55) by (unfold is_u8; lia).
  assert (H2 : is_u8 0xFF) by (unfold is_u8; lia).
  pose proof (zero_negative_follow_result m_init 0x55 0xFF OP_XOR H1 H2) as H.
  pose proof (zero_negative_follow_result m_init 0x55 0xFF 9 H1 H2) as H'.
  change (evaluate m_init 0x55 0xFF OP_XOR) with (0xAA, mkFlags 0 0 1 0) in H.
  change (evaluate m_init 0x55 0xFF 9) with (0, mkFlags 1 0 0 0) in H'.
  cbv beta iota zeta in H, H'.
  destruct H as (_ & HN & _). destruct H' as (HZ & _).
  split; [exact H1 |]. split; [exact H2 |].
  split; [apply HN | apply HZ]; reflexivity.
Defined.

(** ** Unrecognised operation tags *)

(** C4. For 8-bit operands and every operation tag outside the seven
    enumerators, the call returns (it is a total function): the result
    is 0 and the flags are Zero = 1, Carry = 0, Negative = 0,
    Overflow = 0. *)
Theorem unknown_op_reports_zero m0 a b (op : ALUOp) :
  is_u8 a -> is_u8 b -> ~ known_op op ->
  evaluate m0 a b op = (0, mkFlags 1 0 0 0).
Proof.
  intros _ _ Hop. unfold evaluate.
  rewrite alu_execute_default by exact Hop. reflexivity.
Qed.

Lemma unknown_op_reports_zero_witness :
  is_u8 0xC3 /\ is_u8 0x5A /\ ~ known_op 7 /\
  evaluate (mkMem 0xEE (mkFlags 1 1 1 1)) 0xC3 0x5A 7 = (0, mkFlags 1 0 0 0).
Proof.
  assert (H1 : is_u8 0xC3) by (unfold is_u8; lia).
  assert (H2 : is_u8 0x5A) by (unfold is_u8; lia).
  assert (H3 : ~ known_op 7).
  { unfold known_op, OP_ADD, OP_SUB, OP_AND, OP_OR, OP_XOR, OP_SHL, OP_SHR.
    lia. }
  split; [exact H1 |]. split; [exact H2 |]. split; [exact H3 |].
  exact (unknown_op_reports_zero _ 0xC3 0x5A 7 H1 H2 H3).
Defined.

(** ** Bitwise operations *)

(** C5. For 8-bit operands, AND, OR and XOR return the bitwise
    conjunction, disjunction and exclusive disjunction of [a] and [b],
    and each leaves Carry = 0 and Overflow = 0. *)
Theorem bitwise_result_no_carry_no_overflow m0 a b :
  is_u8 a -> is_u8 b ->
  (let '(r, f) := evaluate m0 a b OP_AND in
   r = Z.land a b /\ fC f = 0 /\ fV f = 0) /\
  (let '(r, f) := evaluate m0 a b OP_OR in
   r = Z.lor a b /\ fC f = 0 /\ fV f = 0) /\
  (let '(r, f) := evaluate m0 a b OP_XOR in
   r = Z.lxor a b /\ fC f = 0 /\ fV f = 0).
Proof.
  intros Ha Hb. unfold evaluate.
  rewrite alu_execute_and, alu_execute_or, alu_execute_xor by assumption.
  cbv zeta. cbn [out flags fC fV]. intuition reflexivity.
Qed.

Lemma bitwise_result_no_carry_no_overflow_witness :
  is_u8 0xF0 /\ is_u8 0x3C /\
  fst (evaluate m_init 0xF0 0x3C OP_AND) = 0x30 /\
  fst (evaluate m_init 0xF0 0x3C OP_OR) = 0xFC /\
  fst (evaluate m_init 0xF0 0x3C OP_XOR) = 0xCC.
Proof.
  assert (H1 : is_u8 0xF0) by (unfold is_u8; lia).
  assert (H2 : is_u8 0x3C) by (unfold is_u8; lia).
  pose proof (bitwise_result_no_carry_no_overflow m_init 0xF0 0x3C H1 H2) as H.
  change (evaluate m_init 0xF0 0x3C OP_AND) with (0x30, mkFlags 0 0 0 0) in H.
  change (evaluate m_init 0xF0 0x3C OP_OR) with (0xFC, mkFlags 0 0 1 0) in H.
  change (evaluate m_init 0xF0 0x3C OP_XOR) with (0xCC, mkFlags 0 0 1 0) in H.
  cbv beta iota zeta in H.
  destruct H as ((Hand & _) & (Hor & _) & (Hxor & _)).
  split; [exact H1 |]. split; [exact H2 |].
  split; [exact Hand |]. split; [exact Hor | exact Hxor].
Defined.

(** ** Shifts *)

(** C6. For 8-bit operands, SHL returns [a] shifted left by one and
    truncated to 8 bits, that is [(2 * a) mod 256]; Carry is the
    former bit 7 of [a]; Overflow stays 0; and the output is the same
    for every other 8-bit value [b'] of the second operand. *)
Theorem shl_result_carry_ignores_b m0 a b :
  is_u8 a -> is_u8 b ->
  (let '(r, f) := evaluate m0 a b OP_SHL in
   r = Z.shiftl a 1 mod 256 /\ r = (2 * a) mod 256 /\
   fC f = Z.b2z (Z.testbit a 7) /\ fV f = 0) /\
  (forall b', is_u8 b' ->
     evaluate m0 a b' OP_SHL = evaluate m0 a b OP_SHL).
Proof.
  intros _ _. unfold evaluate. split.
  - rewrite alu_execute_shl. cbv zeta. cbn [out flags fC fV].
    unfold u8. rewrite Z.shiftl_mul_pow2 by lia.
    change (2 ^ 1) with 2. rewrite (Z.mul_comm a 2).
    intuition reflexivity.
  - intros b' _. rewrite !alu_execute_shl. reflexivity.
Qed.

Lemma shl_result_carry_ignores_b_witness :
  is_u8 0x81 /\ is_u8 0 /\ is_u8 0xFF /\
  evaluate m_init 0x81 0xFF OP_SHL = (0x02, mkFlags 0 1 0 0).
Proof.
  assert (H1 : is_u8 0x81) by (unfold is_u8; lia).
  assert (H2 : is_u8 0) by (unfold is_u8; lia).
  assert (H3 : is_u8 0xFF) by (unfold is_u8; lia).
  destruct (shl_result_carry_ignores_b m_init 0x81 0 H1 H2) as [_ Hb].
  split; [exact H1 |]. split; [exact H2 |]. split; [exact H3 |].
  rewrite (Hb 0xFF H3). reflexivity.
Defined.

(** The logical right shift of a [uint8_t] value needs no truncation,
    and its bit 7 is clear. *)
Lemma shr_u8 a : is_u8 a -> u8 (Z.shiftr a 1) = Z.shiftr a 1.
Proof.
  intros Ha. apply u8_small. unfold is_u8 in *.
  rewrite Z.shiftr_div_pow2 by lia. change (2 ^ 1) with 2.
  split.
  - apply Z.div_pos; lia.
  - apply Z.div_lt_upper_bound; lia.
Qed.

Lemma shr_sign_clear a : is_u8 a -> sign_bit (Z.shiftr a 1) = false.
Proof.
  intros Ha. unfold sign_bit. rewrite Z.shiftr_spec by lia.
  apply u8_bits_high; [exact Ha | lia].
Qed.

(** C7. For 8-bit operands, SHR returns [a] shifted right by one, that
    is [a / 2], with bit 7 of the result filled with 0; Carry is the
    former bit 0 of [a]; Overflow stays 0; and the output is the same
    for every other 8-bit value [b'] of the second operand. *)
Theorem shr_result_carry_ignores_b m0 a b :
  is_u8 a -> is_u8 b ->
  (let '(r, f) := evaluate m0 a b OP_SHR in
   r = Z.shiftr a 1 /\ r = a / 2 /\ Z.testbit r 7 = false /\
   fC f = Z.b2z (Z.testbit a 0) /\ fV f = 0) /\
  (forall b', is_u8 b' ->
     evaluate m0 a b' OP_SHR = evaluate m0 a b OP_SHR).
Proof.
  intros Ha _. unfold evaluate. split.
  - rewrite alu_execute_shr. cbv zeta. cbn [out flags fC fV].
    rewrite shr_u8 by exact Ha.
    split; [reflexivity |].
    split; [rewrite Z.shiftr_div_pow2 by lia; reflexivity |].
    split; [apply shr_sign_clear; exact Ha |].
    split; reflexivity.
  - intros b' _. rewrite !alu_execute_shr. reflexivity.
Qed.

Lemma shr_result_carry_ignores_b_witness :
  is_u8 0x03 /\ is_u8 0 /\ is_u8 0xFF /\
  evaluate m_init 0x03 0xFF OP_SHR = (0x01, mkFlags 0 1 0 0).
Proof.
  assert (H1 : is_u8 0x03) by (unfold is_u8; lia).
  assert (H2 : is_u8 0) by (unfold is_u8; lia).
  assert (H3 : is_u8 0xFF) by (unfold is_u8; lia).
  destruct (shr_result_carry_ignores_b m_init 0x03 0 H1 H2) as [_ Hb].
  split; [exact H1 |]. split; [exact H2 |]. split; [exact H3 |].
  rewrite (Hb 0xFF H3). reflexivity.
Defined.

(** C9. For 8-bit operands, SHR never sets the Negative flag: bit 7 of
    the result is clear, so Negative = 0. *)
Theorem shr_never_negative m0 a b :
  is_u8 a -> is_u8 b ->
  let '(r, f) := evaluate m0 a b OP_SHR in
  Z.testbit r 7 = false /\ fN f = 0.
Proof.
  intros Ha _. unfold evaluate.
  rewrite alu_execute_shr. cbv zeta. cbn [out flags fN].
  rewrite shr_u8, shr_sign_clear by exact Ha.
  split; [apply shr_sign_clear; exact Ha | reflexivity].
Qed.

Lemma shr_never_negative_witness :
  is_u8 0xFF /\ is_u8 0x80 /\
  fN (snd (evaluate (mkMem 0 (mkFlags 1 1 1 1)) 0xFF 0x80 OP_SHR)) = 0.
Proof.
  assert (H1 : is_u8 0xFF) by (unfold is_u8; lia).
  assert (H2 : is_u8 0x80) by (unfold is_u8; lia).
  pose proof (shr_never_negative (mkMem 0 (mkFlags 1 1 1 1)) 0xFF 0x80 H1 H2)
    as H.
  change (evaluate (mkMem 0 (mkFlags 1 1 1 1)) 0xFF 0x80 OP_SHR)
    with (0x7F, mkFlags 0 1 0 0) in H.
  cbv beta iota zeta in H.
  split; [exact H1 |]. split; [exact H2 |]. exact (proj2 H).
Defined.

(** ** Statelessness *)

(** The switch overwrites [*out] in every branch. *)
Lemma alu_switch_out_fresh a b op o o' f :
  alu_switch a b op (mkMem o f) = alu_switch a b op (mkMem o' f).
Proof.
  unfold alu_switch.
  repeat match goal with
  | |- context [?x =? ?y] => destruct (x =? y); [reflexivity |]
  end.
  reflexivity.
Qed.

Lemma alu_execute_stateless a b op m m' :
  alu_execute a b op m = alu_execute a b op m'.
Proof.
  rewrite !alu_execute_eq.
  rewrite (alu_switch_out_fresh a b op (out m) (out m')). reflexivity.
Qed.

(** C8. [evaluate] is a function of [a], [b] and [op] alone.
    [clear_flags] resets all four flags, whatever they held; the
    output of a call is the same on every two stores, so two calls
    with the same inputs agree; in particular a call that runs on the
    store left by any earlier call returns what it returns on a fresh
    store, and repeating a call leaves the store as it is. *)
Theorem evaluate_stateless a b (op : ALUOp) :
  (forall f0, clear_flags f0 = mkFlags 0 0 0 0) /\
  (forall m0 m0', evaluate m0 a b op = evaluate m0' a b op) /\
  (forall m0 a' b' op',
     evaluate (alu_execute a' b' op' m0) a b op = evaluate m0 a b op) /\
  (forall m0,
     alu_execute a b op (alu_execute a b op m0) = alu_execute a b op m0).
Proof.
  split; [intros f0; apply clear_flags_zero |].
  split; [| split].
  - intros m0 m0'. unfold evaluate.
    rewrite (alu_execute_stateless a b op m0 m0'). reflexivity.
  - intros m0 a' b' op'. unfold evaluate.
    rewrite (alu_execute_stateless a b op _ m0). reflexivity.
  - intros m0. apply alu_execute_stateless.
Qed.

(** ** The overflow flag as signed overflow *)

Lemma u8_add_cases a b :
  is_u8 a -> is_u8 b ->
  (a + b < 0x100 /\ u8 (a + b) = a + b) \/
  (0x100 <= a + b /\ u8 (a + b) = a + b - 0x100).
Proof.
  unfold is_u8, u8. intros Ha Hb.
  destruct (Z.lt_ge_cases (a + b) 0x100) as [Hlt | Hge].
  - left. split; [exact Hlt | apply Z.mod_small; lia].
  - right. split; [exact Hge |].
    symmetry. apply Z.mod_unique with (q := 1); lia.
Qed.

Lemma u8_sub_cases a b :
  is_u8 a -> is_u8 b ->
  (b <= a /\ u8 (a - b) = a - b) \/
  (a < b /\ u8 (a - b) = a - b + 0x100).
Proof.
  unfold is_u8, u8. intros Ha Hb.
  destruct (Z.le_gt_cases b a) as [Hle | Hgt].
  - left. split; [exact Hle | apply Z.mod_small; lia].
  - right. split; [exact Hgt |].
    symmetry. apply Z.mod_unique with (q := -1); lia.
Qed.

(** [overflow_add] on the truncated sum is 1 exactly when the signed
    sum leaves the 8-bit range. *)
Lemma overflow_add_out_of_range a b :
  is_u8 a -> is_u8 b ->
  overflow_add a b (u8 (a + b)) = 1 <->
  ~ (-128 <= signed8 a + signed8 b <= 127).
Proof.
  intros Ha Hb.
  rewrite overflow_add_signs. unfold sign_bit.
  rewrite !bit7_u8 by (assumption || apply u8_is_u8).
  unfold signed8.
  destruct (u8_add_cases a b Ha Hb) as [[Hs ->] | [Hs ->]];
    unfold is_u8 in Ha, Hb;
    sign_cases.
Qed.

(** X4. The Overflow flag of ADD is 1 exactly when the sum of the
    operands, read as two's-complement numbers, does not fit in 8 bits. *)
Theorem add_overflow_is_signed_overflow m0 a b :
  is_u8 a -> is_u8 b ->
  fV (snd (evaluate m0 a b OP_ADD)) = 1 <->
  ~ (-128 <= signed8 a + signed8 b <= 127).
Proof.
  intros Ha Hb. unfold evaluate.
  rewrite alu_execute_add by assumption. cbv zeta. cbn [snd flags fV].
  apply overflow_add_out_of_range; assumption.
Qed.

(** [overflow_sub] on the truncated difference is 1 exactly when the signed
    difference leaves the 8-bit range. *)
Lemma overflow_sub_out_of_range a b :
  is_u8 a -> is_u8 b ->
  overflow_sub a b (u8 (a - b)) = 1 <->
  ~ (-128 <= signed8 a - signed8 b <= 127).
Proof.
  intros Ha Hb.
  rewrite overflow_sub_signs. unfold sign_bit.
  rewrite !bit7_u8 by (assumption || apply u8_is_u8).
  unfold signed8.
  destruct (u8_sub_cases a b Ha Hb) as [[Hs ->] | [Hs ->]];
    unfold is_u8 in Ha, Hb;
    sign_cases.
Qed.

(** X5. The Overflow flag of SUB is 1 exactly when the difference of
    the operands, read as two's-complement numbers, does not fit in
    8 bits. *)
Theorem sub_overflow_is_signed_overflow m0 a b :
  is_u8 a -> is_u8 b ->
  fV (snd (evaluate m0 a b OP_SUB)) = 1 <->
  ~ (-128 <= signed8 a - signed8 b <= 127).
Proof.
  intros Ha Hb. unfold evaluate.
  rewrite alu_execute_sub by assumption. cbv zeta. cbn [snd flags fV].
  apply overflow_sub_out_of_range; assumption.
Qed.

(** ** Range of the outputs *)

Lemma is_bit_u8 v : is_bit v -> is_u8 v.
Proof. unfold is_bit, is_u8. lia. Qed.

Lemma overflow_add_is_bit a b r : is_bit (overflow_add a b r).
Proof. rewrite overflow_add_bit. apply b2z_is_bit. Qed.

Lemma overflow_sub_is_bit a b r : is_bit (overflow_sub a b r).
Proof. rewrite overflow_sub_bit. apply b2z_is_bit. Qed.

#[local] Hint Resolve overflow_add_is_bit overflow_sub_is_bit u8_is_u8 : alu.

(** On cleared flags, every branch of the switch leaves a [uint8_t]
    in [*out] and one bit in C and in V. *)
Lemma alu_switch_range a b op o :
  let m := alu_switch a b op (mkMem o zero_flags) in
  is_u8 (out m) /\ is_bit (fC (flags m)) /\ is_bit (fV (flags m)).
Proof.
  unfold alu_switch, set_C, set_V, store_out, store_flags.
  repeat match goal with
  | |- context [?x =? ?y] => destruct (x =? y)
  end;
  cbv zeta; cbn [out flags fC fV zero_flags]; rewrite ?u8_b2z;
  (split; [| split]); auto with alu;
  first [ left; reflexivity | unfold is_u8; lia ].
Qed.

(** The result of every call is a [uint8_t]. *)
Lemma outputs_range_out m0 a b op : is_u8 (out (alu_execute a b op m0)).
Proof.
  rewrite alu_execute_eq. cbv zeta. cbn [out].
  apply (alu_switch_range a b op (out m0)).
Qed.

(** X1. Whatever the operands, the operation tag and the store before
    the call, [alu_execute] leaves an 8-bit value in [*out] and 0 or 1
    in each of the four flags: no input makes a flag hold another
    value, and nothing of the 16-bit intermediate leaks into the
    result. *)
Theorem outputs_in_range m0 a b (op : ALUOp) :
  let m := alu_execute a b op m0 in
  is_u8 (out m) /\
  is_bit (fZ (flags m)) /\ is_bit (fC (flags m)) /\
  is_bit (fN (flags m)) /\ is_bit (fV (flags m)).
Proof.
  rewrite alu_execute_eq. cbv zeta. cbn [out flags fZ fC fN fV].
  destruct (alu_switch_range a b op (out m0)) as (Ho & HC & HV).
  split; [exact Ho |]. split; [apply b2z_is_bit |].
  split; [exact HC |]. split; [apply b2z_is_bit | exact HV].
Qed.

(** ** Carry and result together hold the exact sum or difference *)

(** X2. For 8-bit operands, the Carry flag of ADD is the ninth bit of
    the sum: [a + b = 256 * Carry + result], with no information
    lost. *)
Theorem add_carry_extends_result m0 a b :
  is_u8 a -> is_u8 b ->
  let '(r, f) := evaluate m0 a b OP_ADD in
  a + b = 0x100 * fC f + r.
Proof.
  intros Ha Hb. unfold evaluate.
  rewrite alu_execute_add by assumption.
  cbv zeta. cbn [out flags fC].
  destruct (u8_add_cases a b Ha Hb) as [[Hs ->] | [Hs ->]];
    destruct (Z.ltb_spec 0xFF (a + b)); cbn [Z.b2z]; lia.
Qed.

Lemma add_carry_extends_result_witness :
  is_u8 200 /\ is_u8 100 /\
  200 + 100 = 0x100 * 1 + 44.
Proof.
  assert (H1 : is_u8 200) by (unfold is_u8; lia).
  assert (H2 : is_u8 100) by (unfold is_u8; lia).
  split; [exact H1 |]. split; [exact H2 |].
  exact (add_carry_extends_result m_init 200 100 H1 H2).
Defined.

(** X3. For 8-bit operands, the Carry flag of SUB is the borrow of the
    difference: [a - b = result - 256 * Carry]. *)
Theorem sub_borrow_extends_result m0 a b :
  is_u8 a -> is_u8 b ->
  let '(r, f) := evaluate m0 a b OP_SUB in
  a - b = r - 0x100 * fC f.
Proof.
  intros Ha Hb. unfold evaluate.
  rewrite alu_execute_sub by assumption.
  cbv zeta. cbn [out flags fC].
  destruct (u8_sub_cases a b Ha Hb) as [[Hs ->] | [Hs ->]];
    destruct (Z.ltb_spec a b); cbn [Z.b2z]; lia.
Qed.

Lemma sub_borrow_extends_result_witness :
  is_u8 10 /\ is_u8 40 /\
  10 - 40 = 0xE2 - 0x100 * 1.
Proof.
  assert (H1 : is_u8 10) by (unfold is_u8; lia).
  assert (H2 : is_u8 40) by (unfold is_u8; lia).
  split; [exact H1 |]. split; [exact H2 |].
  exact (sub_borrow_extends_result m_init 10 40 H1 H2).
Defined.

(** ** Signed reading of the results *)

Lemma add_overflow_is_signed_overflow_witness :
  is_u8 0x7F /\ is_u8 1 /\ ~ (-128 <= signed8 0x7F + signed8 1 <= 127).
Proof.
  assert (H1 : is_u8 0x7F) by (unfold is_u8; lia).
  assert (H2 : is_u8 1) by (unfold is_u8; lia).
  split; [exact H1 |]. split; [exact H2 |].
  apply (add_overflow_is_signed_overflow m_init 0x7F 1 H1 H2). reflexivity.
Defined.

Lemma sub_overflow_is_signed_overflow_witness :
  is_u8 0x80 /\ is_u8 1 /\ ~ (-128 <= signed8 0x80 - signed8 1 <= 127).
Proof.
  assert (H1 : is_u8 0x80) by (unfold is_u8; lia).
  assert (H2 : is_u8 1) by (unfold is_u8; lia).
  split; [exact H1 |]. split; [exact H2 |].
  apply (sub_overflow_is_signed_overflow m_init 0x80 1 H1 H2). reflexivity.
Defined.

Lemma signed8_range x : is_u8 x -> -128 <= signed8 x <= 127.
Proof.
  unfold is_u8, signed8. intros Hx.
  destruct (Z.leb_spec 0x80 x); lia.
Qed.

(** Two 8-bit patterns with the same signed reading modulo 256 and a
    signed reading inside the 8-bit range are the same number. *)
Lemma signed8_u8_exact x :
  -128 <= x <= 127 -> signed8 (u8 x) = x.
Proof.
  intros Hx. unfold signed8, u8.
  destruct (Z.neg_nonneg_cases x) as [Hneg | Hpos].
  - replace (x mod 0x100) with (x + 0x100)
      by (apply Z.mod_unique with (q := -1); lia).
    destruct (Z.leb_spec 0x80 (x + 0x100)); lia.
  - rewrite Z.mod_small by lia.
    destruct (Z.leb_spec 0x80 x); lia.
Qed.

Lemma signed8_congr x : is_u8 x -> u8 (signed8 x) = x.
Proof.
  unfold is_u8, signed8, u8. intros Hx.
  destruct (Z.leb_spec 0x80 x).
  - symmetry. apply Z.mod_unique with (q := -1); lia.
  - apply Z.mod_small; lia.
Qed.

Lemma u8_add_signed a b :
  is_u8 a -> is_u8 b -> u8 (a + b) = u8 (signed8 a + signed8 b).
Proof.
  intros Ha Hb.
  rewrite <- (signed8_congr a Ha), <- (signed8_congr b Hb) at 1.
  unfold u8. symmetry. apply Zplus_mod.
Qed.

Lemma u8_sub_signed a b :
  is_u8 a -> is_u8 b -> u8 (a - b) = u8 (signed8 a - signed8 b).
Proof.
  intros Ha Hb.
  rewrite <- (signed8_congr a Ha), <- (signed8_congr b Hb) at 1.
  unfold u8. symmetry. apply Zminus_mod.
Qed.

Lemma is_bit_not_1 v : is_bit v -> v <> 1 -> v = 0.
Proof. unfold is_bit. lia. Qed.

(** X6. For 8-bit operands, when ADD (or SUB) leaves Overflow = 0 the
    result read as a two's-complement number is exactly the sum (the
    difference) of the operands read as two's-complement numbers. *)
Theorem signed_result_exact_without_overflow m0 a b :
  is_u8 a -> is_u8 b ->
  (let '(r, f) := evaluate m0 a b OP_ADD in
   fV f = 0 -> signed8 r = signed8 a + signed8 b) /\
  (let '(r, f) := evaluate m0 a b OP_SUB in
   fV f = 0 -> signed8 r = signed8 a - signed8 b).
Proof.
  intros Ha Hb. split.
  - pose proof (overflow_add_out_of_range a b Ha Hb) as HV.
    unfold evaluate. rewrite alu_execute_add by assumption.
    cbv zeta. cbn [out flags fV].
    intros H0. rewrite u8_add_signed by assumption.
    apply signed8_u8_exact.
    destruct (Z.le_gt_cases (-128) (signed8 a + signed8 b));
      destruct (Z.le_gt_cases (signed8 a + signed8 b) 127);
      try lia; exfalso;
      assert (overflow_add a b (u8 (a + b)) = 1) by (apply HV; lia); lia.
  - pose proof (overflow_sub_out_of_range a b Ha Hb) as HV.
    unfold evaluate. rewrite alu_execute_sub by assumption.
    cbv zeta. cbn [out flags fV].
    intros H0. rewrite u8_sub_signed by assumption.
    apply signed8_u8_exact.
    destruct (Z.le_gt_cases (-128) (signed8 a - signed8 b));
      destruct (Z.le_gt_cases (signed8 a - signed8 b) 127);
      try lia; exfalso;
      assert (overflow_sub a b (u8 (a - b)) = 1) by (apply HV; lia); lia.
Qed.

Lemma signed_result_exact_without_overflow_witness :
  is_u8 0xFB /\ is_u8 0x03 /\
  signed8 0xFE = signed8 0xFB + signed8 0x03 /\
  signed8 0xF8 = signed8 0xFB - signed8 0x03.
Proof.
  assert (H1 : is_u8 0xFB) by (unfold is_u8; lia).
  assert (H2 : is_u8 0x03) by (unfold is_u8; lia).
  destruct (signed_result_exact_without_overflow m_init 0xFB 0x03 H1 H2)
    as [Hadd Hsub].
  split; [exact H1 |]. split; [exact H2 |].
  split; [apply Hadd | apply Hsub]; reflexivity.
Defined.

(** X7. For 8-bit operands, after SUB the flags Negative and Overflow
    differ exactly when [a] is less than [b] as two's-complement
    numbers: the signed "less than" test of a compare instruction. *)
Theorem sub_signed_less_than m0 a b :
  is_u8 a -> is_u8 b ->
  let '(_, f) := evaluate m0 a b OP_SUB in
  fN f <> fV f <-> signed8 a < signed8 b.
Proof.
  intros Ha Hb. unfold evaluate.
  rewrite alu_execute_sub by assumption.
  cbv zeta. cbn [out flags fN fV].
  rewrite overflow_sub_bit, Z.land_spec, !Z.lxor_spec. unfold sign_bit.
  rewrite !bit7_u8 by (assumption || apply u8_is_u8).
  unfold signed8.
  destruct (u8_sub_cases a b Ha Hb) as [[Hs ->] | [Hs ->]];
    unfold is_u8 in Ha, Hb;
    repeat match goal with
    | |- context [0x80 <=? ?x] => destruct (Z.leb_spec 0x80 x)
    end;
    cbn [Z.b2z xorb andb]; lia.
Qed.

Lemma sub_signed_less_than_witness :
  is_u8 0x80 /\ is_u8 0x01 /\ signed8 0x80 < signed8 0x01.
Proof.
  assert (H1 : is_u8 0x80) by (unfold is_u8; lia).
  assert (H2 : is_u8 0x01) by (unfold is_u8; lia).
  split; [exact H1 |]. split; [exact H2 |].
  apply (sub_signed_less_than m_init 0x80 0x01 H1 H2). discriminate.
Defined.

(** X8. Whatever the operands, the operation tag and the store before
    the call, the Negative flag is 1 exactly when the result read as a
    two's-complement number is negative. *)
Theorem negative_flag_is_signed_negative m0 a b (op : ALUOp) :
  let '(r, f) := evaluate m0 a b op in
  fN f = 1 <-> signed8 r < 0.
Proof.
  unfold evaluate.
  destruct (outputs_range_out m0 a b op) as [Hlo Hhi].
  rewrite alu_execute_eq in *. cbv zeta in *. cbn [out flags fN] in *.
  rewrite b2z_1, bit7_u8 by (split; assumption).
  unfold signed8.
  destruct (Z.leb_spec 0x80 (out (alu_switch a b op (mkMem (out m0) zero_flags))));
    split; intros; (lia || reflexivity || discriminate).
Qed.

(** ** How the operations compose *)

Lemma u8_add_sub_cancel a b : is_u8 a -> u8 (u8 (a - b) + b) = a.
Proof.
  intros Ha. unfold u8. rewrite Zplus_mod_idemp_l.
  replace (a - b + b) with a by lia. apply Z.mod_small. exact Ha.
Qed.

Lemma u8_sub_add_cancel a b : is_u8 a -> u8 (u8 (a + b) - b) = a.
Proof.
  intros Ha. unfold u8. rewrite Zminus_mod_idemp_l.
  replace (a + b - b) with a by lia. apply Z.mod_small. exact Ha.
Qed.

(** X9. For 8-bit operands, ADD and SUB undo each other on the result,
    also across a carry or a borrow: adding [b] to the result of
    [a - b] gives [a] back, and subtracting [b] from the result of
    [a + b] gives [a] back. *)
Theorem add_sub_round_trip m0 m1 a b :
  is_u8 a -> is_u8 b ->
  fst (evaluate m1 (fst (evaluate m0 a b OP_SUB)) b OP_ADD) = a /\
  fst (evaluate m1 (fst (evaluate m0 a b OP_ADD)) b OP_SUB) = a.
Proof.
  intros Ha Hb. unfold evaluate. cbn [fst].
  rewrite (alu_execute_sub a b m0), (alu_execute_add a b m0) by assumption.
  cbv zeta. cbn [out].
  rewrite alu_execute_add, alu_execute_sub by auto with alu.
  cbv zeta. cbn [out].
  split; [apply u8_add_sub_cancel | apply u8_sub_add_cancel]; exact Ha.
Qed.

Lemma add_sub_round_trip_witness :
  is_u8 10 /\ is_u8 40 /\
  fst (evaluate m_init 10 40 OP_SUB) = 0xE2 /\
  fst (evaluate m_init 0xE2 40 OP_ADD) = 10.
Proof.
  assert (H1 : is_u8 10) by (unfold is_u8; lia).
  assert (H2 : is_u8 40) by (unfold is_u8; lia).
  split; [exact H1 |]. split; [exact H2 |]. split; [reflexivity |].
  exact (proj1 (add_sub_round_trip m_init m_init 10 40 H1 H2)).
Defined.

Lemma lxor_is_u8 a b : is_u8 a -> is_u8 b -> is_u8 (Z.lxor a b).
Proof.
  intros Ha Hb.
  rewrite <- (u8_bitwise Z.lxor xorb a b) by (auto using Z.lxor_spec).
  apply u8_is_u8.
Qed.

(** X10. For 8-bit operands, XOR with the same [b] twice gives [a]
    back. *)
Theorem xor_twice_restores m0 m1 a b :
  is_u8 a -> is_u8 b ->
  fst (evaluate m1 (fst (evaluate m0 a b OP_XOR)) b OP_XOR) = a.
Proof.
  intros Ha Hb. unfold evaluate. cbn [fst].
  rewrite (alu_execute_xor a b m0) by assumption. cbv zeta. cbn [out].
  rewrite alu_execute_xor by (auto using lxor_is_u8). cbv zeta. cbn [out].
  rewrite Z.lxor_assoc, Z.lxor_nilpotent. apply Z.lxor_0_r.
Qed.

Lemma xor_twice_restores_witness :
  is_u8 0x55 /\ is_u8 0xFF /\
  fst (evaluate m_init 0x55 0xFF OP_XOR) = 0xAA /\
  fst (evaluate m_init 0xAA 0xFF OP_XOR) = 0x55.
Proof.
  assert (H1 : is_u8 0x55) by (unfold is_u8; lia).
  assert (H2 : is_u8 0xFF) by (unfold is_u8; lia).
  split; [exact H1 |]. split; [exact H2 |]. split; [reflexivity |].
  exact (xor_twice_restores m_init m_init 0x55 0xFF H1 H2).
Defined.

Lemma overflow_add_comm a b r :
  is_u8 a -> is_u8 b -> overflow_add a b r = overflow_add b a r.
Proof.
  intros _ _. rewrite !overflow_add_bit.
  rewrite !Z.land_spec, !Z.lnot_spec, !Z.lxor_spec by lia.
  destruct (Z.testbit a 7), (Z.testbit b 7), (Z.testbit r 7); reflexivity.
Qed.

(** X11. For 8-bit operands, ADD, AND, OR and XOR return the same
    result and the same four flags when the operands are swapped. *)
Theorem commutative_operations m0 a b :
  is_u8 a -> is_u8 b ->
  evaluate m0 a b OP_ADD = evaluate m0 b a OP_ADD /\
  evaluate m0 a b OP_AND = evaluate m0 b a OP_AND /\
  evaluate m0 a b OP_OR = evaluate m0 b a OP_OR /\
  evaluate m0 a b OP_XOR = evaluate m0 b a OP_XOR.
Proof.
  intros Ha Hb. unfold evaluate.
  rewrite !alu_execute_add, !alu_execute_and, !alu_execute_or,
    !alu_execute_xor by assumption.
  cbv zeta. cbn [out flags].
  rewrite (Z.add_comm b a), (Z.land_comm b a), (Z.lor_comm b a),
    (Z.lxor_comm b a).
  rewrite (overflow_add_comm b a) by assumption.
  repeat split.
Qed.

Lemma commutative_operations_witness :
  is_u8 0x7F /\ is_u8 0x01 /\
  evaluate m_init 0x01 0x7F OP_ADD = (0x80, mkFlags 0 0 1 1).
Proof.
  assert (H1 : is_u8 0x7F) by (unfold is_u8; lia).
  assert (H2 : is_u8 0x01) by (unfold is_u8; lia).
  split; [exact H1 |]. split; [exact H2 |].
  rewrite <- (proj1 (commutative_operations m_init 0x7F 0x01 H1 H2)).
  reflexivity.
Defined.

(** X12. For 8-bit [a], SHL returns the result, Zero, Carry and
    Negative that ADD returns for [a + a]; only Overflow differs, which
    SHL leaves at 0. *)
Theorem shl_is_add_self m0 a b :
  is_u8 a ->
  let '(r, f) := evaluate m0 a b OP_SHL in
  let '(r', f') := evaluate m0 a a OP_ADD in
  r = r' /\ fZ f = fZ f' /\ fC f = fC f' /\ fN f = fN f' /\ fV f = 0.
Proof.
  intros Ha. unfold evaluate.
  rewrite alu_execute_shl, alu_execute_add by assumption.
  cbv zeta. cbn [out flags fZ fC fN fV].
  rewrite Z.shiftl_mul_pow2 by lia. change (2 ^ 1) with 2.
  replace (a * 2) with (a + a) by lia.
  rewrite (bit7_u8 a Ha).
  repeat split.
  unfold is_u8 in Ha.
  destruct (Z.leb_spec 0x80 a), (Z.ltb_spec 0xFF (a + a)); cbn; lia.
Qed.

Lemma shl_is_add_self_witness :
  is_u8 0xC1 /\
  fst (evaluate m_init 0xC1 0 OP_SHL) = fst (evaluate m_init 0xC1 0xC1 OP_ADD) /\
  fC (snd (evaluate m_init 0xC1 0 OP_SHL)) =
  fC (snd (evaluate m_init 0xC1 0xC1 OP_ADD)).
Proof.
  assert (H1 : is_u8 0xC1) by (unfold is_u8; lia).
  pose proof (shl_is_add_self m_init 0xC1 0 H1) as H.
  change (evaluate m_init 0xC1 0 OP_SHL) with (0x82, mkFlags 0 1 1 0) in *.
  change (evaluate m_init 0xC1 0xC1 OP_ADD) with (0x82, mkFlags 0 1 1 0) in *.
  cbv beta iota zeta in H.
  destruct H as (Hr & _ & HC & _).
  split; [exact H1 |]. split; [exact Hr | exact HC].
Defined.

(** X13. For 8-bit [a], a shift loses no bit: after SHL
    [2 * a = 256 * Carry + result], and after SHR
    [a = 2 * result + Carry]. *)
Theorem shift_carry_keeps_lost_bit m0 a b :
  is_u8 a ->
  (let '(r, f) := evaluate m0 a b OP_SHL in 2 * a = 0x100 * fC f + r) /\
  (let '(r, f) := evaluate m0 a b OP_SHR in a = 2 * r + fC f).
Proof.
  intros Ha. unfold evaluate.
  rewrite alu_execute_shl, alu_execute_shr.
  cbv zeta. cbn [out flags fC]. split.
  - rewrite Z.shiftl_mul_pow2 by lia. change (2 ^ 1) with 2.
    rewrite (bit7_u8 a Ha). unfold is_u8, u8 in *.
    destruct (Z.leb_spec 0x80 a); cbn [Z.b2z].
    + replace (a * 2 mod 0x100) with (a * 2 - 0x100)
        by (apply Z.mod_unique with (q := 1); lia).
      lia.
    + rewrite Z.mod_small by lia. lia.
  - rewrite shr_u8 by exact Ha.
    rewrite Z.shiftr_div_pow2 by lia. change (2 ^ 1) with 2.
    rewrite Z.bit0_mod. apply Z.div_mod. lia.
Qed.

Lemma shift_carry_keeps_lost_bit_witness :
  is_u8 0x81 /\ 2 * 0x81 = 0x100 * 1 + 0x02 /\ 0x81 = 2 * 0x40 + 1.
Proof.
  assert (H1 : is_u8 0x81) by (unfold is_u8; lia).
  split; [exact H1 |].
  exact (shift_carry_keeps_lost_bit m_init 0x81 0 H1).
Defined.

Lemma sub_add_complement_carry a b :
  is_u8 a -> is_u8 b -> b <> 0 ->
  u8 (a + u8 (0x100 - b)) = u8 (a - b) /\
  Z.b2z (0xFF <? a + u8 (0x100 - b)) = 1 - Z.b2z (a <? b).
Proof.
  unfold is_u8. intros Ha Hb Hnz.
  assert (Hc : u8 (0x100 - b) = 0x100 - b) by (apply u8_small; unfold is_u8; lia).
  rewrite Hc. split.
  - unfold u8. replace (a + (0x100 - b)) with (a - b + 1 * 0x100) by lia.
    apply Z_mod_plus_full.
  - destruct (Z.ltb_spec 0xFF (a + (0x100 - b))), (Z.ltb_spec a b);
      cbn [Z.b2z]; lia.
Qed.

(** X14. For 8-bit operands with [b <> 0], SUB returns the result that
    ADD returns for [a] and the two's complement of [b], and its Carry
    is the inverse of the Carry of that addition: the borrow
    convention of this ALU. *)
Theorem sub_is_add_of_complement m0 a b :
  is_u8 a -> is_u8 b -> b <> 0 ->
  let '(r, f) := evaluate m0 a b OP_SUB in
  let '(r', f') := evaluate m0 a (u8 (0x100 - b)) OP_ADD in
  r = r' /\ fC f = 1 - fC f'.
Proof.
  intros Ha Hb Hnz. unfold evaluate.
  rewrite alu_execute_sub, alu_execute_add by auto with alu.
  cbv zeta. cbn [out flags fC].
  destruct (sub_add_complement_carry a b Ha Hb Hnz) as [Hr HC].
  rewrite Hr, HC. split; [reflexivity | lia].
Qed.

Lemma sub_is_add_of_complement_witness :
  is_u8 10 /\ is_u8 40 /\ 40 <> 0 /\
  fst (evaluate m_init 10 40 OP_SUB) = fst (evaluate m_init 10 216 OP_ADD) /\
  fC (snd (evaluate m_init 10 40 OP_SUB)) =
  1 - fC (snd (evaluate m_init 10 216 OP_ADD)).
Proof.
  assert (H1 : is_u8 10) by (unfold is_u8; lia).
  assert (H2 : is_u8 40) by (unfold is_u8; lia).
  assert (H3 : 40 <> 0) by lia.
  pose proof (sub_is_add_of_complement m_init 10 40 H1 H2 H3) as H.
  change (evaluate m_init 10 40 OP_SUB) with (0xE2, mkFlags 0 1 1 0) in *.
  change (u8 (0x100 - 40)) with 216 in H.
  change (evaluate m_init 10 216 OP_ADD) with (0xE2, mkFlags 0 0 1 0) in *.
  cbv beta iota zeta in H.
  split; [exact H1 |]. split; [exact H2 |]. split; [exact H3 |]. exact H.
Defined.

(** X15. For an 8-bit [a], the operand [b = 0] is neutral for ADD,
    SUB, OR and XOR, and [b = 0xFF] is neutral for AND: each returns
    [a] itself with Carry = 0 and Overflow = 0, and the same Zero and
    Negative, so all five calls have the same output. *)
Theorem neutral_operand_passes_a m0 a :
  is_u8 a ->
  let pass := (a, mkFlags (Z.b2z (a =? 0)) 0 (Z.b2z (sign_bit a)) 0) in
  evaluate m0 a 0 OP_ADD = pass /\
  evaluate m0 a 0 OP_SUB = pass /\
  evaluate m0 a 0 OP_OR = pass /\
  evaluate m0 a 0 OP_XOR = pass /\
  evaluate m0 a 0xFF OP_AND = pass.
Proof.
  intros Ha.
  assert (H0 : is_u8 0) by (unfold is_u8; lia).
  assert (HF : is_u8 0xFF) by (unfold is_u8; lia).
  unfold evaluate.
  rewrite alu_execute_add, alu_execute_sub, alu_execute_or,
    alu_execute_xor, alu_execute_and by assumption.
  cbv zeta. cbn [out flags].
  rewrite Z.add_0_r, Z.sub_0_r, Z.lor_0_r, Z.lxor_0_r, land_0xFF.
  rewrite (u8_small a Ha).
  rewrite overflow_add_bit, overflow_sub_bit.
  rewrite Z.lxor_nilpotent, !Z.land_0_r, Z.bits_0.
  unfold is_u8 in Ha.
  destruct (Z.ltb_spec 0xFF a); [lia |].
  destruct (Z.ltb_spec a 0); [lia |].
  repeat split.
Qed.

Lemma neutral_operand_passes_a_witness :
  is_u8 0x9C /\ evaluate m_init 0x9C 0 OP_SUB = (0x9C, mkFlags 0 0 1 0).
Proof.
  assert (H1 : is_u8 0x9C) by (unfold is_u8; lia).
  split; [exact H1 |].
  exact (proj1 (proj2 (neutral_operand_passes_a m_init 0x9C H1))).
Defined.

(** ** Operation names *)

Lemma op_to_string_unknown op : ~ known_op op -> op_to_string op = "UNK"%string.
Proof.
  intros Hop. unfold known_op in Hop. unfold op_to_string.
  repeat match goal with
  | |- context [?x =? ?y] =>
      destruct (Z.eqb_spec x y) as [-> | _]; [exfalso; tauto |]
  end.
  reflexivity.
Qed.

(** X16. [op_to_string] gives each of the seven operations a name of
    its own, and [UNK] to exactly the tags outside the seven: a tag
    that prints the name of a known operation is that operation. *)
Theorem op_names_identify_operations (op1 op2 : ALUOp) :
  known_op op1 ->
  (op_to_string op1 = op_to_string op2 -> op1 = op2) /\
  op_to_string op1 <> "UNK"%string /\
  (op_to_string op2 = "UNK"%string <-> ~ known_op op2).
Proof.
  intros H1.
  assert (Hname : forall op, known_op op -> op_to_string op <> "UNK"%string).
  { intros op Hop.
    destruct Hop as [-> | [-> | [-> | [-> | [-> | [-> | ->]]]]]];
      discriminate. }
  split; [| split].
  - intros Heq.
    destruct H1 as [-> | [-> | [-> | [-> | [-> | [-> | ->]]]]]];
      unfold op_to_string in Heq at 2;
      repeat match type of Heq with
      | context [?x =? ?y] =>
          destruct (Z.eqb_spec x y) as [-> | _];
            [first [reflexivity | discriminate Heq] |]
      end;
      discriminate Heq.
  - apply Hname. exact H1.
  - split.
    + intros Hunk Hk. exact (Hname op2 Hk Hunk).
    + apply op_to_string_unknown.
Qed.

Lemma op_names_identify_operations_witness :
  known_op OP_OR /\ op_to_string OP_OR <> "UNK"%string.
Proof.
  assert (H1 : known_op OP_OR)
    by (unfold known_op; right; right; right; left; reflexivity).
  split; [exact H1 |].
  exact (proj1 (proj2 (op_names_identify_operations OP_OR 7 H1))).
Defined.

(** ** Printed lines *)

Lemma count_lines_app s t :
  count_lines (s ++ t) = (count_lines s + count_lines t)%nat.
Proof.
  induction s as [| c s IH]; cbn; [reflexivity |].
  rewrite IH. apply Nat.add_assoc.
Qed.

Lemma hex_digit_not_nl d : Ascii.eqb (hex_digit d) "010" = false.
Proof.
  unfold hex_digit.
  repeat match goal with
  | |- context [match ?x with _ => _ end] => destruct x
  end; reflexivity.
Qed.

Lemma dec_digit_not_nl d : Ascii.eqb (dec_digit d) "010" = false.
Proof.
  unfold dec_digit.
  repeat match goal with
  | |- context [match ?x with _ => _ end] => destruct x
  end; reflexivity.
Qed.

Lemma count_lines_fmt_02X v : count_lines (fmt_02X v) = 0%nat.
Proof. unfold fmt_02X. cbn. rewrite !hex_digit_not_nl. reflexivity. Qed.

Lemma count_lines_fmt_d v : count_lines (fmt_d v) = 0%nat.
Proof.
  unfold fmt_d.
  destruct (v <? 10); [| destruct (v <? 100)];
    cbn; rewrite !dec_digit_not_nl; reflexivity.
Qed.

Lemma count_lines_op_to_string op : count_lines (op_to_string op) = 0%nat.
Proof.
  unfold op_to_string.
  repeat match goal with
  | |- context [?x =? ?y] => destruct (x =? y); [reflexivity |]
  end.
  reflexivity.
Qed.

Lemma count_lines_fmt_flags fl : count_lines (fmt_flags fl) = 1%nat.
Proof.
  unfold fmt_flags.
  rewrite !count_lines_app, !count_lines_fmt_d. reflexivity.
Qed.

Lemma count_lines_print_result a b op result fl :
  count_lines (print_result a b op result fl) = 1%nat.
Proof.
  unfold print_result.
  destruct ((op =? OP_SHL) || (op =? OP_SHR));
    rewrite !count_lines_app, !count_lines_fmt_02X,
      count_lines_op_to_string, count_lines_fmt_flags;
    reflexivity.
Qed.

(** ** The loop of the test harness *)

Lemma run_test_any_garbage f0 f0' t : run_test f0 t = run_test f0' t.
Proof.
  unfold run_test.
  rewrite (alu_execute_stateless _ _ _ (harness_store f0) (harness_store f0')).
  reflexivity.
Qed.

Lemma run_tests_any_garbage garbage garbage' i i' ts :
  run_tests garbage i ts = run_tests garbage' i' ts.
Proof.
  revert i i'. induction ts as [| t rest IH]; intros i i'; cbn [run_tests].
  - reflexivity.
  - rewrite (run_test_any_garbage (garbage i) (garbage' i')).
    rewrite (IH (S i) (S i')). reflexivity.
Qed.

(** X17. Whatever the operands, the operation tag, the result and the
    flag values, [print_result] writes exactly one line, and the loop
    of [main] prints one line per test vector, whatever the vectors
    hold (unknown operation tags included). *)
Theorem one_line_per_vector garbage i ts :
  (forall a b op result fl,
     count_lines (print_result a b op result fl) = 1%nat) /\
  count_lines (run_tests garbage i ts) = List.length ts.
Proof.
  split; [exact count_lines_print_result |].
  revert i. induction ts as [| t rest IH]; intros i; cbn [run_tests].
  - reflexivity.
  - rewrite count_lines_app, IH. unfold run_test.
    rewrite count_lines_print_result. reflexivity.
Qed.

(** X18. The loop of [main] declares [flags] without initialising it;
    the text it prints is the same whatever that memory held, for
    every list of test vectors and from every index on, and so is
    the whole output of [main]. *)
Theorem output_ignores_uninitialised_flags garbage garbage' :
  (forall i i' ts, run_tests garbage i ts = run_tests garbage' i' ts) /\
  main garbage = main garbage'.
Proof.
  split.
  - intros i i' ts. apply run_tests_any_garbage.
  - unfold main.
    rewrite (run_tests_any_garbage garbage garbage' 0 0 tests).
    reflexivity.
Qed.

Lemma string_app_assoc (s t u : string) :
  ((s ++ t) ++ u = s ++ (t ++ u))%string.
Proof.
  induction s as [| c s IH]; cbn; [reflexivity |].
  rewrite IH. reflexivity.
Qed.

(** X19. The text printed for a list of vectors followed by another
    is the text of the first followed by the text of the second: no
    vector changes the line of another. *)
Theorem run_tests_app garbage ts1 ts2 :
  run_tests garbage 0 (ts1 ++ ts2) =
  (run_tests garbage 0 ts1 ++ run_tests garbage 0 ts2)%string.
Proof.
  generalize 0%nat at 1 2 as i.
  induction ts1 as [| t rest IH]; intros i; cbn [run_tests List.app].
  - apply run_tests_any_garbage.
  - rewrite (IH (S i)). symmetry. apply string_app_assoc.
Qed.

(** ** Reading a printed line back *)

Lemma string_app_inv_head (s t t' : string) :
  (s ++ t = s ++ t')%string -> t = t'.
Proof.
  induction s as [| c s IH]; cbn; intros H; [exact H |].
  injection H as H. exact (IH H).
Qed.

Lemma hex_digit_inj d d' :
  0 <= d < 16 -> 0 <= d' < 16 -> hex_digit d = hex_digit d' -> d = d'.
Proof.
  intros Hd Hd' H.
  assert (Hc : d = 0 \/ d = 1 \/ d = 2 \/ d = 3 \/ d = 4 \/ d = 5 \/
               d = 6 \/ d = 7 \/ d = 8 \/ d = 9 \/ d = 10 \/ d = 11 \/
               d = 12 \/ d = 13 \/ d = 14 \/ d = 15) by lia.
  assert (Hc' : d' = 0 \/ d' = 1 \/ d' = 2 \/ d' = 3 \/ d' = 4 \/ d' = 5 \/
                d' = 6 \/ d' = 7 \/ d' = 8 \/ d' = 9 \/ d' = 10 \/
                d' = 11 \/ d' = 12 \/ d' = 13 \/ d' = 14 \/ d' = 15) by lia.
  clear Hd Hd'.
  repeat (destruct Hc as [-> | Hc]); try subst d;
    repeat (destruct Hc' as [-> | Hc']); try subst d';
    first [reflexivity | discriminate H].
Qed.

(** [%02X] of a [uint8_t] is two characters that determine the value. *)
Lemma fmt_02X_inj v v' (t t' : string) :
  is_u8 v -> is_u8 v' ->
  (fmt_02X v ++ t = fmt_02X v' ++ t')%string -> v = v' /\ t = t'.
Proof.
  unfold is_u8, fmt_02X. intros Hv Hv' H. cbn [append] in H.
  injection H as Hhi Hlo Ht.
  apply hex_digit_inj in Hhi;
    [| split; [apply Z.div_pos | apply Z.div_lt_upper_bound]; lia ..].
  apply hex_digit_inj in Hlo; [| apply Z.mod_pos_bound; lia ..].
  split; [| exact Ht].
  rewrite (Z.div_mod v 16), (Z.div_mod v' 16) by lia.
  rewrite Hhi, Hlo. reflexivity.
Qed.

Lemma fmt_flags_inj fl fl' :
  flags_are_bits fl -> flags_are_bits fl' ->
  fmt_flags fl = fmt_flags fl' -> fl = fl'.
Proof.
  destruct fl as [z c n v], fl' as [z' c' n' v'].
  unfold flags_are_bits, is_bit. cbn [fZ fC fN fV].
  intros (Hz & Hc & Hn & Hv) (Hz' & Hc' & Hn' & Hv') H.
  destruct Hz as [-> | ->], Hz' as [-> | ->]; try discriminate H;
    destruct Hc as [-> | ->], Hc' as [-> | ->]; try discriminate H;
    destruct Hn as [-> | ->], Hn' as [-> | ->]; try discriminate H;
    destruct Hv as [-> | ->], Hv' as [-> | ->]; try discriminate H;
    reflexivity.
Qed.

Lemma op_name_prefix_inj op op' (t t' : string) :
  known_op op -> known_op op' ->
  (op_to_string op ++ t = op_to_string op' ++ t')%string ->
  (exists u, t = String " " u) -> (exists u', t' = String " " u') ->
  op = op'.
Proof.
  intros Hop Hop' H [u ->] [u' ->].
  destruct Hop as [-> | [-> | [-> | [-> | [-> | [-> | ->]]]]]];
    destruct Hop' as [-> | [-> | [-> | [-> | [-> | [-> | ->]]]]]];
    first [reflexivity | discriminate H].
Qed.

Lemma print_result_shape a b op result fl :
  exists u,
    print_result a b op result fl = (op_to_string op ++ String " " u)%string.
Proof.
  unfold print_result.
  destruct ((op =? OP_SHL) || (op =? OP_SHR));
    eexists; cbn [append]; reflexivity.
Qed.

Lemma is_shift_test op :
  (op =? OP_SHL) || (op =? OP_SHR) = true <-> is_shift op.
Proof.
  unfold is_shift. rewrite orb_true_iff, !Z.eqb_eq. reflexivity.
Qed.

(** X20. A printed line tells the call it reports: when two calls of
    [print_result] on known operations, 8-bit values and one-bit flags
    write the same text, they have the same operation, the same [a],
    the same result and the same flags, and, unless the operation is
    a shift, the same [b]. *)
Theorem printed_line_determines_call a b op result fl a' b' op' result' fl' :
  known_op op -> known_op op' ->
  is_u8 a -> is_u8 b -> is_u8 result -> flags_are_bits fl ->
  is_u8 a' -> is_u8 b' -> is_u8 result' -> flags_are_bits fl' ->
  print_result a b op result fl = print_result a' b' op' result' fl' ->
  op = op' /\ a = a' /\ result = result' /\ fl = fl' /\
  (~ is_shift op -> b = b').
Proof.
  intros Hop Hop' Ha Hb Hr Hfl Ha' Hb' Hr' Hfl' H.
  assert (Heq : op = op').
  { destruct (print_result_shape a b op result fl) as [u Hu].
    destruct (print_result_shape a' b' op' result' fl') as [u' Hu'].
    rewrite Hu, Hu' in H.
    apply (op_name_prefix_inj op op' _ _ Hop Hop' H); eexists; reflexivity. }
  subst op'. split; [reflexivity |].
  unfold print_result in H.
  destruct ((op =? OP_SHL) || (op =? OP_SHR)) eqn:Hshift.
  - apply string_app_inv_head, string_app_inv_head in H.
    apply fmt_02X_inj in H; [| assumption ..]. destruct H as [-> H].
    apply string_app_inv_head in H.
    apply fmt_02X_inj in H; [| assumption ..]. destruct H as [-> H].
    apply fmt_flags_inj in H; [| assumption ..].
    repeat split; try assumption.
    intros Hns. exfalso. apply Hns, is_shift_test, Hshift.
  - apply string_app_inv_head, string_app_inv_head in H.
    apply fmt_02X_inj in H; [| assumption ..]. destruct H as [-> H].
    apply string_app_inv_head in H.
    apply fmt_02X_inj in H; [| assumption ..]. destruct H as [-> H].
    apply string_app_inv_head in H.
    apply fmt_02X_inj in H; [| assumption ..]. destruct H as [-> H].
    apply fmt_flags_inj in H; [| assumption ..].
    repeat split; assumption.
Qed.

Lemma printed_line_determines_call_witness :
  print_result 0xF0 0x0F OP_OR 0xFF (mkFlags 0 0 1 0) =
  print_result 0xF0 0x0F OP_OR 0xFF (mkFlags 0 0 1 0) /\
  OP_OR = OP_OR /\ 0xF0 = 0xF0 /\ 0xFF = 0xFF /\
  mkFlags 0 0 1 0 = mkFlags 0 0 1 0 /\ (~ is_shift OP_OR -> 0x0F = 0x0F).
Proof.
  assert (Hop : known_op OP_OR)
    by (unfold known_op; right; right; right; left; reflexivity).
  assert (H1 : is_u8 0xF0) by (unfold is_u8; lia).
  assert (H2 : is_u8 0x0F) by (unfold is_u8; lia).
  assert (H3 : is_u8 0xFF) by (unfold is_u8; lia).
  assert (H4 : flags_are_bits (mkFlags 0 0 1 0))
    by (unfold flags_are_bits, is_bit; cbn; lia).
  split; [reflexivity |].
  exact (printed_line_determines_call 0xF0 0x0F OP_OR 0xFF (mkFlags 0 0 1 0)
           0xF0 0x0F OP_OR 0xFF (mkFlags 0 0 1 0)
           Hop Hop H1 H2 H3 H4 H1 H2 H3 H4 eq_refl).
Defined.

(** X21. For the shifts, an iteration of the harness prints the same
    line whatever the second operand of the test vector is (and
    whatever the uninitialised [flags] held): [b] reaches neither the
    result, nor the flags, nor the text. *)
Theorem shift_line_ignores_b f0 f0' a b b' (op : ALUOp) :
  is_shift op ->
  run_test f0 (mkTest a b op) = run_test f0' (mkTest a b' op).
Proof.
  intros [-> | ->]; unfold run_test; cbn [tv_a tv_b tv_op].
  - rewrite !alu_execute_shl. reflexivity.
  - rewrite !alu_execute_shr. reflexivity.
Qed.

Lemma shift_line_ignores_b_witness :
  is_shift OP_SHL /\
  run_test zero_flags (mkTest 0x81 0x00 OP_SHL) =
  run_test (mkFlags 1 1 1 1) (mkTest 0x81 0xFF OP_SHL).
Proof.
  assert (H1 : is_shift OP_SHL) by (left; reflexivity).
  split; [exact H1 |].
  exact (shift_line_ignores_b zero_flags (mkFlags 1 1 1 1) 0x81 0x00 0xFF
           OP_SHL H1).
Defined.

(** The text [main] prints, and its exit status. *)
Example main_prints :
  main (fun _ => mkFlags 0xAA 0xBB 0xCC 0xDD) =
  (("8-bit ALU with Status Flags (Simulation Mode)" ++ nl ++
    "------------------------------------------------" ++ nl ++ nl ++
    "ADD  0x0F , 0x1B -> 0x2A  | Z=0 C=0 N=0 V=0" ++ nl ++
    "SUB  0x0A , 0x28 -> 0xE2  | Z=0 C=1 N=1 V=0" ++ nl ++
    "AND  0xF0 , 0x0F -> 0x00  | Z=1 C=0 N=0 V=0" ++ nl ++
    "OR  0xF0 , 0x0F -> 0xFF  | Z=0 C=0 N=1 V=0" ++ nl ++
    "XOR  0x55 , 0xFF -> 0xAA  | Z=0 C=0 N=1 V=0" ++ nl ++
    "SHL  0x81 -> 0x02  | Z=0 C=1 N=0 V=0" ++ nl ++
    "SHR  0x03 -> 0x01  | Z=0 C=1 N=0 V=0" ++ nl ++
    nl ++ "End of ALU demonstration." ++ nl)%string, 0).
Proof. vm_compute. reflexivity. Qed.
